(** * The config loader of the Errors notes, and what its callers can rely on

    The repository's one multi-step program is [readConfig]
    (the Go file next to the Errors notes, and the same function printed in
    Errors/Readme.md under "Error Propagation with Context"):

<<
    func readConfig() error {
        file, err := os.Open("config.json")
        if err != nil {
            return fmt.Errorf("opening config file: %s", err)   // Readme: %w
        }
        defer file.Close()
        return nil
    }
>>

    The two printings differ in one character of the format string.  Both
    are embedded below, over a model of the parts of Go they run on: error
    values with pointer identity, [errors.Is] / [errors.Unwrap],
    [fmt.Errorf], [os.Open], the [Close] method of a file, and [defer]. *)

From Stdlib Require Import String Ascii List Arith Bool Lia.
Import ListNotations.
Open Scope string_scope.
Set Warnings "-register-all".

(** ** Error values *)

(** Where a pointer-typed value lives.  Package-level sentinels
    ([os.ErrNotExist], ...) are allocated once, at program start; everything
    [errors.New], [fmt.Errorf] and [os.Open] build at run time is a fresh
    heap cell.  Go compares pointers by address, never by content. *)
Inductive addr : Type :=
| Static (name : string)
| Heap (n : nat).

Definition addr_eqb (a b : addr) : bool :=
  match a, b with
  | Static x, Static y => String.eqb x y
  | Heap x, Heap y => Nat.eqb x y
  | _, _ => false
  end.

(** The [syscall.Errno] values an open can answer with (Linux numbering). *)
Inductive errno : Type :=
| EPERM | ENOENT | EIO | EACCES | ENOTDIR | EISDIR | EINVAL
| ENFILE | EMFILE | ENAMETOOLONG | ELOOP.

Definition errno_code (e : errno) : nat :=
  match e with
  | EPERM => 1 | ENOENT => 2 | EIO => 5 | EACCES => 13 | ENOTDIR => 20
  | EISDIR => 21 | EINVAL => 22 | ENFILE => 23 | EMFILE => 24
  | ENAMETOOLONG => 36 | ELOOP => 40
  end.

Definition errno_eqb (a b : errno) : bool :=
  Nat.eqb (errno_code a) (errno_code b).

(** [func (e Errno) Error() string]: the entry of the platform's table. *)
Definition errno_text (e : errno) : string :=
  match e with
  | EPERM => "operation not permitted"
  | ENOENT => "no such file or directory"
  | EIO => "input/output error"
  | EACCES => "permission denied"
  | ENOTDIR => "not a directory"
  | EISDIR => "is a directory"
  | EINVAL => "invalid argument"
  | ENFILE => "too many open files in system"
  | EMFILE => "too many open files"
  | ENAMETOOLONG => "file name too long"
  | ELOOP => "too many levels of symbolic links"
  end.

(** A non-nil value of Go's [error] interface, by dynamic type.  A nil
    [error] is [None] in [option error]. *)
Inductive error : Type :=
| errorString (p : addr) (s : string)                (* *errors.errorString *)
| Errno (e : errno)                                  (* syscall.Errno      *)
| PathError (p : addr) (Op Path : string) (Err : error) (* *fs.PathError   *)
| wrapError (p : addr) (msg : string) (err : error)  (* *fmt.wrapError     *)
| wrapErrors (p : addr) (msg : string) (errs : list error). (* *fmt.wrapErrors *)

(** The [Error() string] method of each dynamic type. *)
Fixpoint Error (e : error) : string :=
  match e with
  | errorString _ s => s
  | Errno n => errno_text n
  | PathError _ op path err => op ++ " " ++ path ++ ": " ++ Error err
  | wrapError _ msg _ => msg
  | wrapErrors _ msg _ => msg
  end.

(** [reflect.TypeOf(e).String()]. *)
Definition typeName (e : error) : string :=
  match e with
  | errorString _ _ => "*errors.errorString"
  | Errno _ => "syscall.Errno"
  | PathError _ _ _ _ => "*fs.PathError"
  | wrapError _ _ _ => "*fmt.wrapError"
  | wrapErrors _ _ _ => "*fmt.wrapErrors"
  end.

(** [a == b] on two non-nil interface values: same dynamic type and equal
    value, which for the pointer types is the same address. *)
Definition go_eq (a b : error) : bool :=
  match a, b with
  | errorString p _, errorString q _ => addr_eqb p q
  | Errno x, Errno y => errno_eqb x y
  | PathError p _ _ _, PathError q _ _ _ => addr_eqb p q
  | wrapError p _ _, wrapError q _ _ => addr_eqb p q
  | wrapErrors p _ _, wrapErrors q _ _ => addr_eqb p q
  | _, _ => false
  end.

(** The sentinels of package [os] (internal/oserror). *)
Definition ErrPermission : error :=
  errorString (Static "os.ErrPermission") "permission denied".
Definition ErrExist : error :=
  errorString (Static "os.ErrExist") "file already exists".
Definition ErrNotExist : error :=
  errorString (Static "os.ErrNotExist") "file does not exist".
Definition ErrClosed : error :=
  errorString (Static "os.ErrClosed") "file already closed".

(** [func (e Errno) Is(target error) bool], the cases of the errno values
    above; no other dynamic type here has an [Is] method. *)
Definition Errno_Is (e : errno) (target : error) : bool :=
  if go_eq target ErrPermission then errno_eqb e EACCES || errno_eqb e EPERM
  else if go_eq target ErrExist then false
  else if go_eq target ErrNotExist then errno_eqb e ENOENT
  else false.

Definition has_Is (err target : error) : bool :=
  match err with
  | Errno e => Errno_Is e target
  | _ => false
  end.

(** The loop of [errors.is]: compare, ask the [Is] method, then follow
    [Unwrap() error] or search every branch of [Unwrap() []error]. *)
Fixpoint is_chain (err target : error) : bool :=
  go_eq err target
  || has_Is err target
  || match err with
     | PathError _ _ _ inner => is_chain inner target
     | wrapError _ _ inner => is_chain inner target
     | wrapErrors _ _ inners => existsb (fun e => is_chain e target) inners
     | errorString _ _ | Errno _ => false
     end.

(** [errors.Is(err, target)]. *)
Definition errors_Is (err target : option error) : bool :=
  match err, target with
  | Some e, Some t => is_chain e t
  | None, None => true
  | _, _ => false
  end.

(** [errors.Unwrap(err)]: only the [Unwrap() error] method counts. *)
Definition errors_Unwrap (err : option error) : option error :=
  match err with
  | Some (PathError _ _ _ inner) => Some inner
  | Some (wrapError _ _ inner) => Some inner
  | _ => None
  end.

(** ** Formatting *)

(** An operand of a variadic [...any] call, as far as the program passes
    them: a string or a non-nil error. *)
Inductive any : Type :=
| AString (s : string)
| AError (e : error).

(** An operand under [%v] (and [%s]): a string is copied, an error is asked
    for its [Error()]. *)
Definition text_of (a : any) : string :=
  match a with
  | AString s => s
  | AError e => Error e
  end.

Definition type_of (a : any) : string :=
  match a with
  | AString _ => "string"
  | AError e => typeName e
  end.

(** The tail [fmt] appends when operands are left over. *)
Definition extra_operands (a : list any) : string :=
  match a with
  | [] => ""
  | _ => "%!(EXTRA "
         ++ String.concat ", " (map (fun x => type_of x ++ "=" ++ text_of x) a)
         ++ ")"
  end.

Definition emit (s : string) (r : option (string * list error))
  : option (string * list error) :=
  match r with
  | Some (out, wrapped) => Some (s ++ out, wrapped)
  | None => None
  end.

Definition emit_wrapping (e : error) (r : option (string * list error))
  : option (string * list error) :=
  match r with
  | Some (out, wrapped) => Some (Error e ++ out, e :: wrapped)
  | None => None
  end.

(** The printing loop of package fmt as [fmt.Errorf] runs it (wrapping
    enabled), for the directives [%%], [%s], [%v], and [%w] on an error
    operand, without flags, width or explicit argument index.  The result is
    the text and the operands of [%w] in order; [None] says that the format
    uses a directive outside this fragment, [%w] on an operand that is not
    an error included. *)
Fixpoint doPrintf (format : string) (a : list any)
  : option (string * list error) :=
  match format with
  | EmptyString => Some (extra_operands a, [])
  | String "%" EmptyString => Some ("%!(NOVERB)" ++ extra_operands a, [])
  | String "%" (String verb rest) =>
      match verb, a with
      | "%"%char, _ => emit "%" (doPrintf rest a)
      | "s"%char, [] => emit "%!s(MISSING)" (doPrintf rest [])
      | "v"%char, [] => emit "%!v(MISSING)" (doPrintf rest [])
      | "w"%char, [] => emit "%!w(MISSING)" (doPrintf rest [])
      | "s"%char, x :: a' => emit (text_of x) (doPrintf rest a')
      | "v"%char, x :: a' => emit (text_of x) (doPrintf rest a')
      | "w"%char, AError e :: a' => emit_wrapping e (doPrintf rest a')
      | _, _ => None
      end
  | String c rest => emit (String c EmptyString) (doPrintf rest a)
  end.

(** ** The world outside the program *)

(** An [*os.File]: the descriptor it owns and the name it was opened by. *)
Record File : Type := mkFile { fd : nat; file_name : string }.

(** What an observer of the process sees, in order. *)
Inductive Event : Type :=
| EvOpen (name : string) (answer : errno + nat)  (* an open attempt *)
| EvClose (descriptor : nat)                     (* a call of Close  *)
| EvStdout (s : string).                         (* a write to stdout *)

(** [platform_open] is the file system as the open primitive answers for
    it: an errno, or the content of a readable file.  It is arbitrary: no
    theorem below assumes which names exist. *)
Record World : Type := mkWorld {
  platform_open : string -> errno + string;
  open_files : list nat;
  heap_next : nat;
  trace : list Event
}.

Definition is_open_event (e : Event) : bool :=
  match e with EvOpen _ _ => true | _ => false end.
Definition is_close_event (e : Event) : bool :=
  match e with EvClose _ => true | _ => false end.
Definition is_stdout_event (e : Event) : bool :=
  match e with EvStdout _ => true | _ => false end.

(** The counters a fake resource would keep. *)
Definition open_count (w : World) : nat :=
  length (filter is_open_event (trace w)).
Definition release_count (w : World) : nat :=
  length (filter is_close_event (trace w)).
Definition print_count (w : World) : nat :=
  length (filter is_stdout_event (trace w)).

(** POSIX hands out the lowest descriptor that is not open. *)
Fixpoint lowest_free_from (fuel n : nat) (used : list nat) : nat :=
  match fuel with
  | O => n
  | S k => if existsb (Nat.eqb n) used
           then lowest_free_from k (S n) used
           else n
  end.

Definition lowest_free (used : list nat) : nat :=
  lowest_free_from (length used) 0 used.

(** [os.Open(name)] on a world: one attempt, and either a fresh
    [*PathError{"open", name, errno}] or a file on a new descriptor.
    [open_files] follows the descriptors of the program's own files and of
    the standard streams; what the runtime opens for itself on a successful
    open (the poller's descriptors) is not in it, so nothing below is
    claimed about the whole descriptor table after a success. *)
Definition sys_Open (name : string) (w : World) : (File + error) * World :=
  match platform_open w name with
  | inl en =>
      (inr (PathError (Heap (heap_next w)) "open" name (Errno en)),
       mkWorld (platform_open w) (open_files w) (S (heap_next w))
               (trace w ++ [EvOpen name (inl en)]))
  | inr _ =>
      let d := lowest_free (open_files w) in
      (inl (mkFile d name),
       mkWorld (platform_open w) (d :: open_files w) (heap_next w)
               (trace w ++ [EvOpen name (inr d)]))
  end.

(** [file.Close()]: releases the descriptor; on a file that is not open it
    answers [*PathError{"close", name, ErrClosed}]. *)
Definition sys_Close (f : File) (w : World) : option error * World :=
  if existsb (Nat.eqb (fd f)) (open_files w)
  then (None,
        mkWorld (platform_open w) (remove Nat.eq_dec (fd f) (open_files w))
                (heap_next w) (trace w ++ [EvClose (fd f)]))
  else (Some (PathError (Heap (heap_next w)) "close" (file_name f) ErrClosed),
        mkWorld (platform_open w) (open_files w) (S (heap_next w))
                (trace w ++ [EvClose (fd f)])).

(** ** Function bodies: state, [defer], and calls *)

(** The calls a body of this program defers. *)
Inductive DeferredCall : Type :=
| DeferClose (f : File).

(** A running function: the world and its own stack of deferred calls, the
    most recent first. *)
Record Frame : Type := mkFrame { world : World; deferred : list DeferredCall }.

(** A body either runs to its [return] or leaves the modelled fragment of
    the standard library ([None]). *)
Definition Go (A : Type) : Type := Frame -> option (A * Frame).

Definition ret {A} (a : A) : Go A := fun fr => Some (a, fr).

Definition bind {A B} (c : Go A) (k : A -> Go B) : Go B :=
  fun fr =>
    match c fr with
    | Some (a, fr') => k a fr'
    | None => None
    end.

Notation "x <- c ;; k" := (bind c (fun x => k))
  (at level 61, c at next level, right associativity).
Notation "c ;; k" := (bind c (fun _ => k))
  (at level 61, right associativity).

Definition unmodelled {A} : Go A := fun _ => None.

(** A primitive acts on the world and leaves the deferred stack alone. *)
Definition prim {A} (op : World -> A * World) : Go A :=
  fun fr =>
    let (a, w) := op (world fr) in Some (a, mkFrame w (deferred fr)).

(** [defer f(...)]: registered where the statement is executed. *)
Definition defer (d : DeferredCall) : Go unit :=
  fun fr => Some (tt, mkFrame (world fr) (d :: deferred fr)).

(** A deferred call runs with its result thrown away. *)
Definition run_deferred_call (d : DeferredCall) (w : World) : World :=
  match d with
  | DeferClose f => snd (sys_Close f w)
  end.

(** At return the stack is run last-in, first-out. *)
Fixpoint run_deferred (ds : list DeferredCall) (w : World) : World :=
  match ds with
  | [] => w
  | d :: ds' => run_deferred ds' (run_deferred_call d w)
  end.

(** Calling a function: a new frame with nothing deferred, the body, then
    the deferred calls; only after them does the caller get the result. *)
Definition call {A} (body : Go A) (w : World) : option (A * World) :=
  match body (mkFrame w []) with
  | Some (a, fr) => Some (a, run_deferred (deferred fr) (world fr))
  | None => None
  end.

(** A call made from inside another body. *)
Definition invoke {A} (body : Go A) : Go A :=
  fun fr =>
    match call body (world fr) with
    | Some (a, w) => Some (a, mkFrame w (deferred fr))
    | None => None
    end.

Definition os_Open (name : string) : Go (File + error) := prim (sys_Open name).

(** [errors.New(text)]: a new [*errorString]. *)
Definition alloc (build : addr -> error) (w : World) : error * World :=
  (build (Heap (heap_next w)),
   mkWorld (platform_open w) (open_files w) (S (heap_next w)) (trace w)).

Definition errors_New (text : string) : Go error :=
  prim (alloc (fun p => errorString p text)).

(** [fmt.Errorf(format, a...)]: without [%w] the result is
    [errors.New(text)] and nothing of the operands survives but their text;
    with one [%w] it is a [*wrapError] that holds the operand; with several
    (Go 1.20) a [*wrapErrors]. *)
Definition fmt_Errorf (format : string) (a : list any) : Go error :=
  match doPrintf format a with
  | None => unmodelled
  | Some (s, []) => errors_New s
  | Some (s, [e]) => prim (alloc (fun p => wrapError p s e))
  | Some (s, es) => prim (alloc (fun p => wrapErrors p s es))
  end.

(** [fmt.Println(a...)]: operands under [%v], a space between any two, a
    newline at the end, written to standard output. *)
Definition fmt_Println (a : list any) : Go unit :=
  prim (fun w =>
    (tt, mkWorld (platform_open w) (open_files w) (heap_next w)
           (trace w ++ [EvStdout (String.concat " " (map text_of a)
                                  ++ String "010" EmptyString)]))).

(** ** The program *)

(** The Go file of the Errors notes. *)
Module Program.

(** The body of [readConfig], with the file name as a parameter. *)
Definition readConfigBody (name : string) : Go (option error) :=
  r <- os_Open name ;;
  match r with
  | inr err =>
      e <- fmt_Errorf "opening config file: %s" [AError err] ;;
      ret (Some e)
  | inl file =>
      defer (DeferClose file) ;;
      ret None
  end.

(** [load(path)]: one call of that body. *)
Definition load (path : string) (w : World) : option (option error * World) :=
  call (readConfigBody path) w.

(** [func readConfig() error], as written: the name is the literal. *)
Definition readConfig : World -> option (option error * World) :=
  load "config.json".

(** [func main()]. *)
Definition mainBody : Go unit :=
  err <- invoke (readConfigBody "config.json") ;;
  match err with
  | Some e => fmt_Println [AString "Error:"; AError e]
  | None => ret tt
  end.

Definition main : World -> option (unit * World) := call mainBody.

End Program.

(** The same function as Errors/Readme.md prints it, with [%w]. *)
Module Readme.

Definition readConfigBody (name : string) : Go (option error) :=
  r <- os_Open name ;;
  match r with
  | inr err =>
      e <- fmt_Errorf "opening config file: %w" [AError err] ;;
      ret (Some e)
  | inl file =>
      defer (DeferClose file) ;;
      ret None
  end.

Definition load (path : string) (w : World) : option (option error * World) :=
  call (readConfigBody path) w.

Definition readConfig : World -> option (option error * World) :=
  load "config.json".

End Readme.

(** ** Worlds to run on *)

(** A process whose standard streams are open and whose directory holds
    the files of [present], and nothing else. *)
Definition world_with (present : list (string * string)) : World :=
  mkWorld
    (fun name =>
       match find (fun kv => String.eqb (fst kv) name) present with
       | Some kv => inr (snd kv)
       | None => inl ENOENT
       end)
    [0; 1; 2] 0 [].

Definition no_config : World := world_with [].
Definition empty_config : World := world_with [("config.json", "")].

(** [strings.Contains(s, sub)]. *)
Fixpoint containsb (sub s : string) : bool :=
  prefix sub s
  || match s with
     | EmptyString => false
     | String _ s' => containsb sub s'
     end.

(** What the caller of a loader can tell about a result without comparing
    addresses: nil or not, and for an error its dynamic type and text. *)
Definition observable (r : option error) : option (string * string) :=
  option_map (fun e => (typeName e, Error e)) r.

(** Two answers of [os.Open] that a program cannot tell apart by content. *)
Definition same_answer (a b : File + error) : Prop :=
  match a, b with
  | inl _, inl _ => True
  | inr x, inr y => typeName x = typeName y /\ Error x = Error y
  | _, _ => False
  end.

(** * Lemmas *)

(** ** Strings *)

Lemma append_empty_r (s : string) : s ++ "" = s.
Proof.
  induction s as [|c s IH]; simpl; [reflexivity | now rewrite IH].
Qed.

Lemma prefix_append (sub rest : string) : prefix sub (sub ++ rest) = true.
Proof.
  induction sub as [|c sub IH]; simpl.
  - now destruct rest.
  - destruct (ascii_dec c c) as [_|N]; [exact IH | now elim N].
Qed.

Lemma containsb_here (sub rest : string) : containsb sub (sub ++ rest) = true.
Proof.
  pose proof (prefix_append sub rest) as H.
  destruct (sub ++ rest) as [|c s]; cbn [containsb]; rewrite H; reflexivity.
Qed.

Lemma containsb_later (sub pre s : string) :
  containsb sub s = true -> containsb sub (pre ++ s) = true.
Proof.
  intros H. induction pre as [|c pre IH]; simpl; [exact H|].
  rewrite IH. apply orb_true_r.
Qed.

(** ** Descriptors *)

Lemma lowest_free_from_spec (used : list nat) (fuel n : nat) :
  let m := lowest_free_from fuel n used in
  n <= m <= n + fuel
  /\ (forall k, n <= k < m -> In k used)
  /\ (m < n + fuel -> ~ In m used).
Proof.
  revert n. induction fuel as [|fuel IH]; intros n; simpl.
  - repeat split; try lia.
  - destruct (existsb (Nat.eqb n) used) eqn:E.
    + destruct (IH (S n)) as ((Hlo & Hhi) & Hbelow & Hfree).
      repeat split; try lia.
      * intros k Hk. destruct (Nat.eq_dec k n) as [->|Hne].
        -- apply existsb_exists in E. destruct E as (x & Hin & Hx).
           apply Nat.eqb_eq in Hx. now subst x.
        -- apply Hbelow. lia.
      * intros Hm. apply Hfree. lia.
    + repeat split; try lia.
      intros _ Hin.
      assert (existsb (Nat.eqb n) used = true) as Habs.
      { apply existsb_exists. exists n. split; [exact Hin | apply Nat.eqb_refl]. }
      congruence.
Qed.

(** The descriptor handed out is not one that is open. *)
Lemma lowest_free_fresh (used : list nat) : ~ In (lowest_free used) used.
Proof.
  unfold lowest_free.
  destruct (lowest_free_from_spec used (length used) 0) as ((_ & Hhi) & Hbelow & Hfree).
  simpl in *.
  set (m := lowest_free_from (length used) 0 used) in *.
  destruct (Nat.lt_ge_cases m (length used)) as [Hlt|Hge]; [now apply Hfree|].
  assert (m = length used) as Hm by lia.
  intros Hin.
  assert (incl (seq 0 (S (length used))) used) as Hincl.
  { intros k Hk. apply in_seq in Hk.
    destruct (Nat.eq_dec k m) as [->|Hne]; [exact Hin|].
    apply Hbelow. lia. }
  apply NoDup_incl_length in Hincl; [|apply seq_NoDup].
  rewrite length_seq in Hincl. lia.
Qed.

(** ** The two answers of [os.Open] *)

Definition open_failure (name : string) (w : World) (en : errno) : error :=
  PathError (Heap (heap_next w)) "open" name (Errno en).

Lemma sys_Open_failure (name : string) (w : World) (cause : error) :
  fst (sys_Open name w) = inr cause ->
  exists en, platform_open w name = inl en
             /\ cause = open_failure name w en.
Proof.
  unfold sys_Open. destruct (platform_open w name) as [en|c]; simpl; intros H.
  - exists en. split; [reflexivity | now injection H as <-].
  - discriminate.
Qed.

Lemma sys_Open_success (name : string) (w : World) (f : File) :
  fst (sys_Open name w) = inl f ->
  (exists content, platform_open w name = inr content)
  /\ f = mkFile (lowest_free (open_files w)) name.
Proof.
  unfold sys_Open. destruct (platform_open w name) as [en|c]; simpl; intros H.
  - discriminate.
  - split; [now exists c | congruence].
Qed.

Lemma sys_Close_open (f : File) (w : World) :
  ~ In (fd f) (open_files w) ->
  sys_Close f (mkWorld (platform_open w) (fd f :: open_files w)
                       (heap_next w) (trace w))
  = (None, mkWorld (platform_open w) (open_files w) (heap_next w)
                   (trace w ++ [EvClose (fd f)])).
Proof.
  intros Hfresh. unfold sys_Close. simpl.
  rewrite Nat.eqb_refl. simpl.
  destruct (Nat.eq_dec (fd f) (fd f)) as [_|N]; [|now elim N].
  now rewrite notin_remove.
Qed.

(** ** What each body does, by the answer of the open *)

Definition after_failure (name : string) (w : World) (en : errno) : World :=
  mkWorld (platform_open w) (open_files w) (S (S (heap_next w)))
          (trace w ++ [EvOpen name (inl en)]).

Definition opened (name : string) (w : World) : File :=
  mkFile (lowest_free (open_files w)) name.

Definition while_open (name : string) (w : World) : World :=
  mkWorld (platform_open w) (fd (opened name w) :: open_files w) (heap_next w)
          (trace w ++ [EvOpen name (inr (fd (opened name w)))]).

Definition after_success (name : string) (w : World) : World :=
  mkWorld (platform_open w) (open_files w) (heap_next w)
          (trace w ++ [EvOpen name (inr (fd (opened name w)));
                       EvClose (fd (opened name w))]).

Ltac run_body H :=
  unfold bind, os_Open, prim, sys_Open; simpl; rewrite H; simpl;
  unfold ret, defer; simpl; rewrite ?append_empty_r.

Lemma Program_body_failure (name : string) (w : World) (en : errno) :
  platform_open w name = inl en ->
  Program.readConfigBody name (mkFrame w [])
  = Some (Some (errorString (Heap (S (heap_next w)))
                  ("opening config file: " ++ Error (open_failure name w en))),
          mkFrame (after_failure name w en) []).
Proof.
  intros H. unfold Program.readConfigBody. run_body H. reflexivity.
Qed.

Lemma Program_body_success (name : string) (w : World) (content : string) :
  platform_open w name = inr content ->
  Program.readConfigBody name (mkFrame w [])
  = Some (None, mkFrame (while_open name w) [DeferClose (opened name w)]).
Proof.
  intros H. unfold Program.readConfigBody. run_body H. reflexivity.
Qed.

Lemma Readme_body_failure (name : string) (w : World) (en : errno) :
  platform_open w name = inl en ->
  Readme.readConfigBody name (mkFrame w [])
  = Some (Some (wrapError (Heap (S (heap_next w)))
                  ("opening config file: " ++ Error (open_failure name w en))
                  (open_failure name w en)),
          mkFrame (after_failure name w en) []).
Proof.
  intros H. unfold Readme.readConfigBody. run_body H. reflexivity.
Qed.

Lemma Readme_body_success (name : string) (w : World) (content : string) :
  platform_open w name = inr content ->
  Readme.readConfigBody name (mkFrame w [])
  = Some (None, mkFrame (while_open name w) [DeferClose (opened name w)]).
Proof.
  intros H. unfold Readme.readConfigBody. run_body H. reflexivity.
Qed.

(** The deferred [Close] of a file that was just opened. *)
Lemma close_after_open (name : string) (w : World) :
  run_deferred [DeferClose (opened name w)] (while_open name w)
  = after_success name w.
Proof.
  pose proof (sys_Close_open (opened name w)
                (mkWorld (platform_open w) (open_files w) (heap_next w)
                         (trace w ++ [EvOpen name (inr (fd (opened name w)))]))
                (lowest_free_fresh (open_files w))) as H.
  cbn [platform_open open_files heap_next trace] in H.
  cbn [run_deferred run_deferred_call]. unfold while_open. rewrite H.
  cbn [snd]. unfold after_success. now rewrite <- app_assoc.
Qed.

Lemma Program_load_failure (name : string) (w : World) (en : errno) :
  platform_open w name = inl en ->
  Program.load name w
  = Some (Some (errorString (Heap (S (heap_next w)))
                  ("opening config file: " ++ Error (open_failure name w en))),
          after_failure name w en).
Proof.
  intros H. unfold Program.load, call.
  now rewrite (Program_body_failure name w en H).
Qed.

Lemma Program_load_success (name : string) (w : World) (content : string) :
  platform_open w name = inr content ->
  Program.load name w = Some (None, after_success name w).
Proof.
  intros H. unfold Program.load, call.
  rewrite (Program_body_success name w content H).
  cbn [deferred world]. now rewrite close_after_open.
Qed.

Lemma Readme_load_failure (name : string) (w : World) (en : errno) :
  platform_open w name = inl en ->
  Readme.load name w
  = Some (Some (wrapError (Heap (S (heap_next w)))
                  ("opening config file: " ++ Error (open_failure name w en))
                  (open_failure name w en)),
          after_failure name w en).
Proof.
  intros H. unfold Readme.load, call.
  now rewrite (Readme_body_failure name w en H).
Qed.

Lemma Readme_load_success (name : string) (w : World) (content : string) :
  platform_open w name = inr content ->
  Readme.load name w = Some (None, after_success name w).
Proof.
  intros H. unfold Readme.load, call.
  rewrite (Readme_body_success name w content H).
  cbn [deferred world]. now rewrite close_after_open.
Qed.

(** ** Counters across a call *)

Lemma count_app (p : Event -> bool) (l l' : list Event) :
  length (filter p (l ++ l')) = length (filter p l) + length (filter p l').
Proof. now rewrite filter_app, length_app. Qed.

Lemma counters_after_failure (name : string) (w : World) (en : errno) :
  open_count (after_failure name w en) = S (open_count w)
  /\ release_count (after_failure name w en) = release_count w
  /\ print_count (after_failure name w en) = print_count w.
Proof.
  unfold open_count, release_count, print_count, after_failure.
  cbn [trace]. rewrite !count_app. simpl. lia.
Qed.

Lemma counters_after_success (name : string) (w : World) :
  open_count (after_success name w) = S (open_count w)
  /\ release_count (after_success name w) = S (release_count w)
  /\ print_count (after_success name w) = print_count w.
Proof.
  unfold open_count, release_count, print_count, after_success.
  cbn [trace]. rewrite !count_app. simpl. lia.
Qed.

(** ** The format of the program keeps the text and drops the value *)

(** An error built by [fmt.Errorf] without [%w] matches no sentinel. *)
Lemma fresh_errorString_matches_no_sentinel (n : nat) (s sentinel text : string) :
  errors_Is (Some (errorString (Heap n) s))
            (Some (errorString (Static sentinel) text)) = false.
Proof. reflexivity. Qed.

(** For every name that does not exist, the error of the program matches
    [os.ErrNotExist] no more and has nothing to unwrap. *)
Lemma Program_load_drops_cause (name : string) (w : World) :
  platform_open w name = inl ENOENT ->
  exists e w', Program.load name w = Some (Some e, w')
    /\ errors_Is (Some (open_failure name w ENOENT)) (Some ErrNotExist) = true
    /\ errors_Is (Some e) (Some ErrNotExist) = false
    /\ errors_Unwrap (Some e) = None.
Proof.
  intros H. rewrite (Program_load_failure name w ENOENT H).
  eexists; eexists; repeat split.
Qed.

(** The function as the notes print it keeps the cause: the check against
    [os.ErrNotExist] succeeds through the wrapper, and [errors.Unwrap]
    gives back the very error of the open. *)
Lemma Readme_load_keeps_cause (name : string) (w : World) :
  platform_open w name = inl ENOENT ->
  exists e w', Readme.load name w = Some (Some e, w')
    /\ errors_Is (Some e) (Some ErrNotExist) = true
    /\ errors_Unwrap (Some e) = Some (open_failure name w ENOENT).
Proof.
  intros H. rewrite (Readme_load_failure name w ENOENT H).
  eexists; eexists; repeat split.
Qed.

(** ** The effects of one call, whatever the open answers *)

Lemma Program_load_effects (path : string) (w : World) :
  exists r w' answer rest,
    Program.load path w = Some (r, w')
    /\ trace w' = (trace w ++ EvOpen path answer :: rest)%list
    /\ filter is_open_event rest = []
    /\ open_count w' = S (open_count w)
    /\ release_count w' <= S (release_count w)
    /\ platform_open w' = platform_open w
    /\ match answer with
       | inl _ => open_files w' = open_files w
       | inr d => ~ In d (open_files w')
       end.
Proof.
  destruct (platform_open w path) as [en|content] eqn:E.
  - rewrite (Program_load_failure path w en E).
    destruct (counters_after_failure path w en) as (Ho & Hr & _).
    exists (Some (errorString (Heap (S (heap_next w)))
                    ("opening config file: " ++ Error (open_failure path w en)))),
           (after_failure path w en), (inl en), [].
    rewrite Ho, Hr. repeat split. lia.
  - rewrite (Program_load_success path w content E).
    destruct (counters_after_success path w) as (Ho & Hr & _).
    exists None, (after_success path w), (inr (fd (opened path w))),
           [EvClose (fd (opened path w))].
    rewrite Ho, Hr. repeat split; [lia|].
    apply lowest_free_fresh.
Qed.

(** * The claims *)

(** C1.  When the file does not exist, the error of the open itself
    matches the platform's not-found error, but the error [readConfig]
    returns does not: the check [errors.Is(err, os.ErrNotExist)] fails on it
    and [errors.Unwrap] finds no cause, because the program formats the
    cause with [%s].  The function as Errors/Readme.md prints it, with [%w],
    passes the same check on the same input. *)
Theorem C1_program_loses_the_cause :
  fst (sys_Open "config.json" no_config)
  = inr (open_failure "config.json" no_config ENOENT)
  /\ errors_Is (Some (open_failure "config.json" no_config ENOENT))
               (Some ErrNotExist) = true
  /\ (exists e w',
        Program.readConfig no_config = Some (Some e, w')
        /\ errors_Is (Some e) (Some ErrNotExist) = false
        /\ errors_Unwrap (Some e) = None)
  /\ (exists e w',
        Readme.readConfig no_config = Some (Some e, w')
        /\ errors_Is (Some e) (Some ErrNotExist) = true
        /\ errors_Unwrap (Some e)
           = Some (open_failure "config.json" no_config ENOENT)).
Proof.
  split; [reflexivity|]. split; [reflexivity|]. split.
  - destruct (Program_load_drops_cause "config.json" no_config eq_refl)
      as (e & w' & Hrun & _ & Hnot & Hnone).
    now exists e, w'.
  - apply (Readme_load_keeps_cause "config.json" no_config eq_refl).
Qed.

(** C2, as stated, fails: a call whose open fails releases nothing, so a
    release counter that starts at 0 still reads 0 after the call. *)
Lemma C2_counterexample_failed_open :
  exists e w',
    Program.readConfig no_config = Some (Some e, w')
    /\ release_count no_config = 0
    /\ release_count w' = 0
    /\ release_count w' <> 1.
Proof.
  eexists; eexists. split; [reflexivity|].
  repeat split. discriminate.
Qed.

(** C2, amended.  Every call returns, and the release operation has then
    been invoked exactly once if the open succeeded and not at all if the
    open failed. *)
Theorem C2_released_once_iff_opened (path : string) (w : World) :
  exists r w',
    Program.load path w = Some (r, w')
    /\ match fst (sys_Open path w) with
       | inl _ => r = None /\ release_count w' = S (release_count w)
       | inr _ => (exists e, r = Some e) /\ release_count w' = release_count w
       end.
Proof.
  unfold sys_Open.
  destruct (platform_open w path) as [en|content] eqn:E; cbn [fst].
  - rewrite (Program_load_failure path w en E).
    destruct (counters_after_failure path w en) as (_ & Hr & _).
    eexists; eexists. split; [reflexivity|]. split; [now eexists | exact Hr].
  - rewrite (Program_load_success path w content E).
    destruct (counters_after_success path w) as (_ & Hr & _).
    eexists; eexists. split; [reflexivity|]. split; [reflexivity | exact Hr].
Qed.

(** C3.  Whenever the open fails with some error [cause], the call returns
    an error whose text is "opening config file: " followed by the text of
    [cause]; so it contains both the context and the whole original text.
    For a missing file the text of [cause] is the platform's not-found
    message for that name. *)
Theorem C3_text_has_context_and_cause (path : string) (w : World) (cause : error) :
  fst (sys_Open path w) = inr cause ->
  exists e w',
    Program.load path w = Some (Some e, w')
    /\ Error e = "opening config file: " ++ Error cause
    /\ containsb "opening config file" (Error e) = true
    /\ containsb (Error cause) (Error e) = true
    /\ (platform_open w path = inl ENOENT ->
        Error e = "opening config file: open " ++ path
                  ++ ": no such file or directory").
Proof.
  intros H. destruct (sys_Open_failure path w cause H) as (en & E & ->).
  rewrite (Program_load_failure path w en E).
  eexists; eexists. split; [reflexivity|].
  change (Error (errorString ?p ?s)) with s.
  split; [reflexivity|]. split; [|split].
  - apply (containsb_here "opening config file").
  - set (t := Error (open_failure path w en)).
    apply (containsb_later t "opening config file: ").
    rewrite <- (append_empty_r t) at 2. apply containsb_here.
  - intros E'. rewrite E in E'. injection E' as ->. reflexivity.
Qed.

Lemma C3_witness_missing_config :
  fst (sys_Open "config.json" no_config)
  = inr (open_failure "config.json" no_config ENOENT)
  /\ exists e w',
       Program.load "config.json" no_config = Some (Some e, w')
       /\ Error e = "opening config file: "
                    ++ Error (open_failure "config.json" no_config ENOENT)
       /\ containsb "opening config file" (Error e) = true
       /\ containsb (Error (open_failure "config.json" no_config ENOENT))
                    (Error e) = true
       /\ (platform_open no_config "config.json" = inl ENOENT ->
           Error e = "opening config file: open " ++ "config.json"
                     ++ ": no such file or directory").
Proof.
  split; [reflexivity|].
  apply (C3_text_has_context_and_cause "config.json" no_config
           (open_failure "config.json" no_config ENOENT)).
  reflexivity.
Defined.

(** C4.  Whenever the open succeeds with a file [f], the body reaches its
    [return] with [f] still open and its [Close] deferred; the call then
    runs that [Close] before it hands the result to the caller.  In the
    world the caller gets, the [Close] of [f] is the last event, it comes
    right after the open, and the descriptor of [f] is no longer open. *)
Theorem C4_released_before_the_caller_sees_the_result
    (path : string) (w : World) (f : File) :
  fst (sys_Open path w) = inl f ->
  exists fr w',
    Program.readConfigBody path (mkFrame w []) = Some (None, fr)
    /\ deferred fr = [DeferClose f]
    /\ In (fd f) (open_files (world fr))
    /\ Program.load path w = Some (None, w')
    /\ w' = run_deferred (deferred fr) (world fr)
    /\ trace w' = (trace w ++ [EvOpen path (inr (fd f)); EvClose (fd f)])%list
    /\ ~ In (fd f) (open_files w').
Proof.
  intros H. destruct (sys_Open_success path w f H) as ((content & E) & ->).
  exists (mkFrame (while_open path w) [DeferClose (opened path w)]),
         (after_success path w).
  rewrite (Program_body_success path w content E).
  rewrite (Program_load_success path w content E).
  cbn [deferred world]. rewrite close_after_open.
  repeat split.
  - now left.
  - apply lowest_free_fresh.
Qed.

Lemma C4_witness_empty_config :
  fst (sys_Open "config.json" empty_config) = inl (mkFile 3 "config.json")
  /\ exists fr w',
       Program.readConfigBody "config.json" (mkFrame empty_config [])
       = Some (None, fr)
       /\ deferred fr = [DeferClose (mkFile 3 "config.json")]
       /\ In 3 (open_files (world fr))
       /\ Program.load "config.json" empty_config = Some (None, w')
       /\ w' = run_deferred (deferred fr) (world fr)
       /\ trace w' = [EvOpen "config.json" (inr 3); EvClose 3]
       /\ ~ In 3 (open_files w').
Proof.
  split; [reflexivity|].
  apply (C4_released_before_the_caller_sees_the_result
           "config.json" empty_config (mkFile 3 "config.json")).
  reflexivity.
Defined.

(** C5.  For every name the platform opens for reading, whatever the file
    holds, the open gives a file, the call returns nil, the release
    operation has been invoked exactly once more than before the call, and
    the descriptor of that file is no longer open: no handle is left
    dangling. *)
Theorem C5_success_returns_nil_and_releases
    (path : string) (w : World) (content : string) :
  platform_open w path = inr content ->
  exists f w',
    fst (sys_Open path w) = inl f
    /\ Program.load path w = Some (None, w')
    /\ release_count w' = S (release_count w)
    /\ ~ In (fd f) (open_files w').
Proof.
  intros E. exists (opened path w), (after_success path w).
  rewrite (Program_load_success path w content E).
  destruct (counters_after_success path w) as (_ & Hr & _).
  split; [unfold sys_Open; now rewrite E|].
  split; [reflexivity|]. split; [exact Hr|].
  apply lowest_free_fresh.
Qed.

Lemma C5_witness_empty_config :
  platform_open empty_config "config.json" = inr ""
  /\ exists f w',
       fst (sys_Open "config.json" empty_config) = inl f
       /\ Program.readConfig empty_config = Some (None, w')
       /\ release_count w' = 1
       /\ ~ In (fd f) (open_files w').
Proof.
  split; [reflexivity|].
  apply (C5_success_returns_nil_and_releases "config.json" empty_config "").
  reflexivity.
Defined.

(** C6.  Every call returns after exactly one open attempt, on the name it
    was given, and at most one release; the file system is what it was
    before the call.  After a failed open the set of open descriptors is
    unchanged too; after a successful one the descriptor the open gave is no
    longer open.  Nothing is remembered between calls: a second call makes
    its own open attempt. *)
Theorem C6_one_open_at_most_one_close (path : string) (w : World) :
  exists r w' answer rest,
    Program.load path w = Some (r, w')
    /\ trace w' = (trace w ++ EvOpen path answer :: rest)%list
    /\ filter is_open_event rest = []
    /\ open_count w' = S (open_count w)
    /\ release_count w' <= S (release_count w)
    /\ platform_open w' = platform_open w
    /\ match answer with
       | inl _ => open_files w' = open_files w
       | inr d => ~ In d (open_files w')
       end
    /\ exists r2 w2,
         Program.load path w' = Some (r2, w2)
         /\ open_count w2 = S (S (open_count w)).
Proof.
  destruct (Program_load_effects path w)
    as (r & w' & answer & rest & Hrun & Htr & Hno & Ho & Hr & Hp & Hf).
  destruct (Program_load_effects path w')
    as (r2 & w2 & _ & _ & Hrun2 & _ & _ & Ho2 & _).
  exists r, w', answer, rest. repeat split; try assumption.
  exists r2, w2. split; [assumption | now rewrite Ho2, Ho].
Qed.

(** C7.  Whenever the open fails with [cause], the body returns at once: it
    defers nothing, and the world it leaves is the world right after the
    failed open but for the two error values it has allocated.  The caller
    gets a non-nil error whose text is the context followed by the text of
    [cause]; there was one open attempt, nothing was printed, and the file
    system and the open descriptors are unchanged. *)
Theorem C7_open_failure_is_returned_at_once
    (path : string) (w : World) (cause : error) :
  fst (sys_Open path w) = inr cause ->
  exists e fr,
    Program.readConfigBody path (mkFrame w []) = Some (Some e, fr)
    /\ deferred fr = []
    /\ Program.load path w = Some (Some e, world fr)
    /\ Error e = "opening config file: " ++ Error cause
    /\ trace (world fr) = trace (snd (sys_Open path w))
    /\ open_count (world fr) = S (open_count w)
    /\ print_count (world fr) = print_count w
    /\ open_files (world fr) = open_files w
    /\ platform_open (world fr) = platform_open w.
Proof.
  intros H. destruct (sys_Open_failure path w cause H) as (en & E & ->).
  rewrite (Program_body_failure path w en E).
  rewrite (Program_load_failure path w en E).
  destruct (counters_after_failure path w en) as (Ho & _ & Hp).
  eexists; eexists. split; [reflexivity|]. cbn [deferred world].
  rewrite Ho, Hp. repeat split.
  unfold sys_Open. now rewrite E.
Qed.

Lemma C7_witness_missing_config :
  fst (sys_Open "config.json" no_config)
  = inr (open_failure "config.json" no_config ENOENT)
  /\ exists e fr,
       Program.readConfigBody "config.json" (mkFrame no_config [])
       = Some (Some e, fr)
       /\ deferred fr = []
       /\ Program.load "config.json" no_config = Some (Some e, world fr)
       /\ Error e = "opening config file: "
                    ++ Error (open_failure "config.json" no_config ENOENT)
       /\ trace (world fr) = trace (snd (sys_Open "config.json" no_config))
       /\ open_count (world fr) = 1
       /\ print_count (world fr) = 0
       /\ open_files (world fr) = [0; 1; 2]
       /\ platform_open (world fr) = platform_open no_config.
Proof.
  split; [reflexivity|].
  apply (C7_open_failure_is_returned_at_once "config.json" no_config
           (open_failure "config.json" no_config ENOENT)).
  reflexivity.
Defined.

(** C8.  For every string given as the name, empty and malformed ones
    included, the call returns, the name reaches the open primitive as it
    is, and the result follows the answer of the open alone: nil when the
    open succeeds, and when it fails with [cause] an error made by
    [fmt.Errorf] whose text is the context followed by the text of
    [cause].  The loader has no failure of its own. *)
Theorem C8_every_failure_is_the_open_failure (path : string) (w : World) :
  exists r w' answer rest,
    Program.load path w = Some (r, w')
    /\ trace w' = (trace w ++ EvOpen path answer :: rest)%list
    /\ match fst (sys_Open path w) with
       | inl _ => r = None
       | inr cause =>
           exists p,
             r = Some (errorString p ("opening config file: " ++ Error cause))
       end.
Proof.
  unfold sys_Open.
  destruct (platform_open w path) as [en|content] eqn:E; cbn [fst].
  - rewrite (Program_load_failure path w en E).
    exists (Some (errorString (Heap (S (heap_next w)))
                    ("opening config file: " ++ Error (open_failure path w en)))),
           (after_failure path w en), (inl en), [].
    repeat split. now eexists.
  - rewrite (Program_load_success path w content E).
    exists None, (after_success path w), (inr (fd (opened path w))),
           [EvClose (fd (opened path w))].
    repeat split.
Qed.

(** C9.  Whenever the open fails, the body returns with nothing deferred,
    so the call invokes no release: the release counter after the call is
    what it was before, 0 if it started at 0. *)
Theorem C9_failed_open_releases_nothing
    (path : string) (w : World) (cause : error) :
  fst (sys_Open path w) = inr cause ->
  exists e fr,
    Program.readConfigBody path (mkFrame w []) = Some (Some e, fr)
    /\ deferred fr = []
    /\ Program.load path w = Some (Some e, world fr)
    /\ release_count (world fr) = release_count w.
Proof.
  intros H. destruct (sys_Open_failure path w cause H) as (en & E & ->).
  rewrite (Program_body_failure path w en E).
  rewrite (Program_load_failure path w en E).
  destruct (counters_after_failure path w en) as (_ & Hr & _).
  eexists; eexists. split; [reflexivity|]. cbn [deferred world].
  now rewrite Hr.
Qed.

Lemma C9_witness_missing_config :
  fst (sys_Open "config.json" no_config)
  = inr (open_failure "config.json" no_config ENOENT)
  /\ exists e fr,
       Program.readConfigBody "config.json" (mkFrame no_config [])
       = Some (Some e, fr)
       /\ deferred fr = []
       /\ Program.load "config.json" no_config = Some (Some e, world fr)
       /\ release_count (world fr) = 0.
Proof.
  split; [reflexivity|].
  apply (C9_failed_open_releases_nothing "config.json" no_config
           (open_failure "config.json" no_config ENOENT)).
  reflexivity.
Defined.

(** C10.  Take two runs, in any two worlds, in which the open gives the same
    answer: it succeeds in both, or fails in both with errors of the same
    type and text.  Then both calls return, and they return the same thing:
    nil in both when the open succeeded, and otherwise in both an error of
    [fmt.Errorf] whose text is exactly the context followed by the text of
    the open's error.  If the two runs also allocate at the same address,
    the two results are equal as values. *)
Theorem C10_result_is_a_function_of_the_open_answer
    (path : string) (w1 w2 : World) :
  same_answer (fst (sys_Open path w1)) (fst (sys_Open path w2)) ->
  exists r1 w1' r2 w2',
    Program.load path w1 = Some (r1, w1')
    /\ Program.load path w2 = Some (r2, w2')
    /\ observable r1 = observable r2
    /\ (heap_next w1 = heap_next w2 -> r1 = r2)
    /\ match fst (sys_Open path w1) with
       | inl _ => r1 = None /\ r2 = None
       | inr cause =>
           exists p1 p2,
             r1 = Some (errorString p1 ("opening config file: " ++ Error cause))
             /\ r2 = Some (errorString p2 ("opening config file: " ++ Error cause))
       end.
Proof.
  unfold sys_Open.
  destruct (platform_open w1 path) as [e1|c1] eqn:E1;
    destruct (platform_open w2 path) as [e2|c2] eqn:E2;
    cbn [fst same_answer]; intros H; try contradiction.
  - destruct H as (_ & Htext).
    change (Error (open_failure path w1 e1) = Error (open_failure path w2 e2))
      in Htext.
    rewrite (Program_load_failure path w1 e1 E1).
    rewrite (Program_load_failure path w2 e2 E2).
    eexists; eexists; eexists; eexists.
    split; [reflexivity|]. split; [reflexivity|].
    rewrite <- Htext. split; [reflexivity|]. split.
    + now intros ->.
    + now eexists; eexists.
  - rewrite (Program_load_success path w1 c1 E1).
    rewrite (Program_load_success path w2 c2 E2).
    eexists; eexists; eexists; eexists. now repeat split.
Qed.

Lemma C10_witness_two_missing_configs :
  same_answer (fst (sys_Open "config.json" no_config))
              (fst (sys_Open "config.json"
                      (mkWorld (fun _ => inl ENOENT) [0; 1; 2; 3] 7
                               [EvStdout "started"])))
  /\ exists r1 w1' r2 w2',
       Program.load "config.json" no_config = Some (r1, w1')
       /\ Program.load "config.json"
            (mkWorld (fun _ => inl ENOENT) [0; 1; 2; 3] 7
                     [EvStdout "started"]) = Some (r2, w2')
       /\ observable r1 = observable r2
       /\ (0 = 7 -> r1 = r2)
       /\ exists p1 p2,
            r1 = Some (errorString p1
                         ("opening config file: "
                          ++ Error (open_failure "config.json" no_config ENOENT)))
            /\ r2 = Some (errorString p2
                            ("opening config file: "
                             ++ Error (open_failure "config.json" no_config ENOENT))).
Proof.
  split; [simpl; split; reflexivity|].
  apply (C10_result_is_a_function_of_the_open_answer "config.json" no_config
           (mkWorld (fun _ => inl ENOENT) [0; 1; 2; 3] 7 [EvStdout "started"])).
  simpl; split; reflexivity.
Defined.

(** * The program at the prompt *)

(** With no config.json, [main] prints the one line its caller reads, after
    the failed open and with nothing released. *)
Example main_reports_the_missing_config :
  option_map (fun r => trace (snd r)) (Program.main no_config)
  = Some [EvOpen "config.json" (inl ENOENT);
          EvStdout ("Error: opening config file: "
                    ++ "open config.json: no such file or directory"
                    ++ String "010" EmptyString)].
Proof. reflexivity. Qed.

(** With an empty config.json, [main] prints nothing. *)
Example main_is_silent_on_success :
  option_map (fun r => trace (snd r)) (Program.main empty_config)
  = Some [EvOpen "config.json" (inr 3); EvClose 3].
Proof. reflexivity. Qed.

(** An empty name goes to the open primitive like any other. *)
Example empty_name_is_left_to_the_open :
  option_map (fun r => (observable (fst r), trace (snd r)))
             (Program.load "" no_config)
  = Some (Some ("*errors.errorString",
                "opening config file: open : no such file or directory"),
          [EvOpen "" (inl ENOENT)]).
Proof. reflexivity. Qed.


(** * The rest of the Errors notes and of the program *)

(** ** More definitions *)

(** The statements and the custom error type that Errors/Readme.md shows
    around [readConfig]. *)
Module Notes.

(** "You Want to Add More Info":
    [return fmt.Errorf("failed to read config: %v", err)]. *)
Definition failedToReadConfig_v (err : error) : Go error :=
  fmt_Errorf "failed to read config: %v" [AError err].

(** "The Fix: Use %w":
    [return fmt.Errorf("failed to read config: %w", err)]. *)
Definition failedToReadConfig_w (err : error) : Go error :=
  fmt_Errorf "failed to read config: %w" [AError err].

(** The fix applied at [n] levels of a call chain, each level returning
    the error of the level below with its context added. *)
Fixpoint add_context (n : nat) (err : error) : Go error :=
  match n with
  | O => ret err
  | S k => inner <- add_context k err ;; failedToReadConfig_w inner
  end.

(** [fmt.Sprintf]: the printing loop without wrapping.  It differs from
    the loop of [fmt.Errorf] only where [%w] meets an operand, which is
    outside the fragment ([None]). *)
Definition fmt_Sprintf (format : string) (a : list any) : option string :=
  match doPrintf format a with
  | Some (s, []) => Some s
  | _ => None
  end.

(** [type ValidationError struct { Field string; Msg string }]. *)
Record ValidationError : Type := mkValidationError {
  Field : string;
  Msg : string
}.

(** [func (e *ValidationError) Error() string]. *)
Definition ValidationError_Error (e : ValidationError) : option string :=
  fmt_Sprintf "validation failed on %s: %s" [AString (Field e); AString (Msg e)].

End Notes.

(** What [n] levels of added context build from [err] when the allocator
    stands at [h]. *)
Fixpoint layered (n h : nat) (err : error) : error :=
  match n with
  | O => err
  | S k =>
      wrapError (Heap (h + k))
                ("failed to read config: " ++ Error (layered k h err))
                (layered k h err)
  end.

(** A package-level sentinel, as [errors.New] at package scope makes it. *)
Definition sentinel (name text : string) : error :=
  errorString (Static name) text.

(** A directory whose files the process may not read. *)
Definition locked_config : World :=
  mkWorld (fun _ => inl EACCES) [0; 1; 2] 0 [].

(** ** More lemmas *)

Lemma append_assoc (a b c : string) : (a ++ b) ++ c = a ++ b ++ c.
Proof.
  induction a as [|x a IH]; simpl; [reflexivity | now rewrite IH].
Qed.

Lemma failedToReadConfig_w_runs (err : error) (fr : Frame) :
  Notes.failedToReadConfig_w err fr
  = Some (wrapError (Heap (heap_next (world fr)))
                    ("failed to read config: " ++ Error err) err,
          mkFrame (mkWorld (platform_open (world fr)) (open_files (world fr))
                           (S (heap_next (world fr))) (trace (world fr)))
                  (deferred fr)).
Proof.
  unfold Notes.failedToReadConfig_w, fmt_Errorf. simpl.
  rewrite append_empty_r. reflexivity.
Qed.

Lemma failedToReadConfig_v_runs (err : error) (fr : Frame) :
  Notes.failedToReadConfig_v err fr
  = Some (errorString (Heap (heap_next (world fr)))
                      ("failed to read config: " ++ Error err),
          mkFrame (mkWorld (platform_open (world fr)) (open_files (world fr))
                           (S (heap_next (world fr))) (trace (world fr)))
                  (deferred fr)).
Proof.
  unfold Notes.failedToReadConfig_v, fmt_Errorf. simpl.
  rewrite append_empty_r. reflexivity.
Qed.

Lemma add_context_runs (n : nat) (err : error) (w : World) (ds : list DeferredCall) :
  Notes.add_context n err (mkFrame w ds)
  = Some (layered n (heap_next w) err,
          mkFrame (mkWorld (platform_open w) (open_files w)
                           (heap_next w + n) (trace w)) ds).
Proof.
  induction n as [|n IH]; cbn [Notes.add_context layered].
  - unfold ret. rewrite Nat.add_0_r. now destruct w.
  - unfold bind. rewrite IH. rewrite failedToReadConfig_w_runs.
    cbn [world deferred platform_open open_files heap_next trace].
    now rewrite Nat.add_succ_r.
Qed.

Lemma layered_keeps_match (n h : nat) (err target : error) :
  is_chain err target = true -> is_chain (layered n h err) target = true.
Proof.
  intros H. induction n as [|n IH]; cbn [layered]; [exact H|].
  cbn [is_chain]. rewrite IH. apply orb_true_r.
Qed.

Lemma layered_unwraps (n h : nat) (err : error) :
  Nat.iter n errors_Unwrap (Some (layered n h err)) = Some err.
Proof.
  induction n as [|n IH]; [reflexivity|].
  rewrite Nat.iter_succ_r. cbn [layered errors_Unwrap]. exact IH.
Qed.

Lemma layered_text (n h : nat) (err : error) :
  Error (layered n h err)
  = Nat.iter n (append "failed to read config: ") (Error err).
Proof.
  induction n as [|n IH]; [reflexivity|].
  change (Nat.iter (S n) (append "failed to read config: ") (Error err))
    with ("failed to read config: "
          ++ Nat.iter n (append "failed to read config: ") (Error err)).
  rewrite <- IH. reflexivity.
Qed.

Lemma layered_is_not_a_sentinel (n h : nat) (err : error) (name text : string) :
  go_eq (layered (S n) h err) (sentinel name text) = false.
Proof. reflexivity. Qed.

(** ** The caller: [main] *)

(** X1.  In every world [main] returns.  When the open of config.json
    fails it writes one line to standard output, after the open attempt:
    "Error: opening config file: ", the text of the open's error, and a
    newline.  When the open succeeds it writes nothing: the open and the
    close of the file are all that happens. *)
Theorem X1_main_prints_the_error_or_nothing (w : World) :
  exists w',
    Program.main w = Some (tt, w')
    /\ match fst (sys_Open "config.json" w) with
       | inr cause =>
           exists en,
             platform_open w "config.json" = inl en
             /\ trace w'
             = (trace w
                ++ [EvOpen "config.json" (inl en);
                    EvStdout ("Error: opening config file: " ++ Error cause
                              ++ String "010" EmptyString)])%list
       | inl f =>
           trace w'
           = (trace w ++ [EvOpen "config.json" (inr (fd f)); EvClose (fd f)])%list
       end.
Proof.
  unfold Program.main, call, Program.mainBody, bind, invoke. cbn [world].
  change (call (Program.readConfigBody "config.json") w)
    with (Program.load "config.json" w).
  unfold sys_Open.
  destruct (platform_open w "config.json") as [en|content] eqn:E; cbn [fst].
  - rewrite (Program_load_failure "config.json" w en E).
    eexists. split; [reflexivity|]. exists en. split; [reflexivity|]. simpl.
    rewrite <- app_assoc. reflexivity.
  - rewrite (Program_load_success "config.json" w content E).
    eexists. split; reflexivity.
Qed.

(** X2.  In every world [main] makes exactly one open attempt, then does
    exactly one of two things, releasing the file or printing a line, and
    leaves the file system as it found it.  After a failed open the set of
    open descriptors is as [main] found it; after a successful one the
    descriptor of the file is no longer open. *)
Theorem X2_main_leaves_nothing_open (w : World) :
  exists w',
    Program.main w = Some (tt, w')
    /\ open_count w' = S (open_count w)
    /\ release_count w' + print_count w'
       = S (release_count w + print_count w)
    /\ match fst (sys_Open "config.json" w) with
       | inr _ => open_files w' = open_files w
       | inl f => ~ In (fd f) (open_files w')
       end
    /\ platform_open w' = platform_open w.
Proof.
  unfold Program.main, call, Program.mainBody, bind, invoke. cbn [world].
  change (call (Program.readConfigBody "config.json") w)
    with (Program.load "config.json" w).
  unfold sys_Open.
  destruct (platform_open w "config.json") as [en|content] eqn:E; cbn [fst].
  - rewrite (Program_load_failure "config.json" w en E).
    destruct (counters_after_failure "config.json" w en) as (Ho & Hr & Hp).
    eexists. split; [reflexivity|].
    unfold open_count, release_count, print_count in *.
    cbn [fmt_Println prim world deferred run_deferred trace open_files
         platform_open snd fst].
    simpl. rewrite !count_app in *. simpl in *.
    split; [lia|]. split; [lia|]. split; reflexivity.
  - rewrite (Program_load_success "config.json" w content E).
    destruct (counters_after_success "config.json" w) as (Ho & Hr & Hp).
    eexists. split; [reflexivity|].
    cbn [ret world deferred run_deferred]. rewrite Ho, Hr, Hp.
    split; [lia|]. split; [lia|]. split; [|reflexivity].
    apply lowest_free_fresh.
Qed.

(** ** The two printings of [readConfig] *)

(** X3.  Whatever errno the open fails with, the error the program returns
    is a bare [*errors.errorString]: [errors.Unwrap] gives nil on it, the
    only target [errors.Is] accepts for it is that very value, and it
    matches no package-level sentinel, whichever one the open's own error
    matches. *)
Theorem X3_program_error_matches_only_itself
    (path : string) (w : World) (en : errno) :
  platform_open w path = inl en ->
  exists e w',
    Program.load path w = Some (Some e, w')
    /\ typeName e = "*errors.errorString"
    /\ errors_Unwrap (Some e) = None
    /\ (forall t, errors_Is (Some e) (Some t) = go_eq e t)
    /\ (forall name text, errors_Is (Some e) (Some (sentinel name text)) = false)
    /\ errors_Is (Some (open_failure path w en)) (Some ErrNotExist)
       = errno_eqb en ENOENT
    /\ errors_Is (Some (open_failure path w en)) (Some ErrPermission)
       = errno_eqb en EACCES || errno_eqb en EPERM.
Proof.
  intros E. rewrite (Program_load_failure path w en E).
  eexists; eexists. split; [reflexivity|].
  split; [reflexivity|]. split; [reflexivity|]. split; [|split; [|split]].
  - intros t. cbn [errors_Is is_chain has_Is]. now rewrite !orb_false_r.
  - reflexivity.
  - now destruct en.
  - now destruct en.
Qed.

Lemma X3_witness_locked_config :
  platform_open locked_config "config.json" = inl EACCES
  /\ exists e w',
       Program.load "config.json" locked_config = Some (Some e, w')
       /\ typeName e = "*errors.errorString"
       /\ errors_Unwrap (Some e) = None
       /\ (forall t, errors_Is (Some e) (Some t) = go_eq e t)
       /\ (forall name text,
             errors_Is (Some e) (Some (sentinel name text)) = false)
       /\ errors_Is (Some (open_failure "config.json" locked_config EACCES))
                    (Some ErrNotExist) = false
       /\ errors_Is (Some (open_failure "config.json" locked_config EACCES))
                    (Some ErrPermission) = true.
Proof.
  split; [reflexivity|].
  apply (X3_program_error_matches_only_itself "config.json" locked_config EACCES).
  reflexivity.
Defined.

(** X4.  Whatever errno the open fails with, the error that [readConfig]
    of the notes returns answers [errors.Is] as the open's own error does:
    it matches [os.ErrNotExist] exactly for ENOENT and [os.ErrPermission]
    exactly for EACCES and EPERM.  [errors.Unwrap] gives back the error of
    the open, and once more the errno.  Compared with [==], it equals no
    sentinel. *)
Theorem X4_readme_error_keeps_every_cause
    (path : string) (w : World) (en : errno) :
  platform_open w path = inl en ->
  exists e w',
    Readme.load path w = Some (Some e, w')
    /\ errors_Is (Some e) (Some ErrNotExist) = errno_eqb en ENOENT
    /\ errors_Is (Some e) (Some ErrPermission)
       = errno_eqb en EACCES || errno_eqb en EPERM
    /\ (forall t, errors_Is (Some (open_failure path w en)) (Some t) = true ->
                  errors_Is (Some e) (Some t) = true)
    /\ errors_Unwrap (Some e) = Some (open_failure path w en)
    /\ errors_Unwrap (errors_Unwrap (Some e)) = Some (Errno en)
    /\ (forall name text, go_eq e (sentinel name text) = false).
Proof.
  intros E. rewrite (Readme_load_failure path w en E).
  eexists; eexists. split; [reflexivity|].
  split; [now destruct en|]. split; [now destruct en|].
  split; [|now repeat split].
  intros t Ht. cbn [errors_Is] in *. cbn [is_chain].
  fold (open_failure path w en). rewrite Ht. apply orb_true_r.
Qed.

Lemma X4_witness_locked_config :
  platform_open locked_config "config.json" = inl EACCES
  /\ exists e w',
       Readme.load "config.json" locked_config = Some (Some e, w')
       /\ errors_Is (Some e) (Some ErrNotExist) = false
       /\ errors_Is (Some e) (Some ErrPermission) = true
       /\ (forall t,
             errors_Is (Some (open_failure "config.json" locked_config EACCES))
                       (Some t) = true ->
             errors_Is (Some e) (Some t) = true)
       /\ errors_Unwrap (Some e)
          = Some (open_failure "config.json" locked_config EACCES)
       /\ errors_Unwrap (errors_Unwrap (Some e)) = Some (Errno EACCES)
       /\ (forall name text, go_eq e (sentinel name text) = false).
Proof.
  split; [reflexivity|].
  apply (X4_readme_error_keeps_every_cause "config.json" locked_config EACCES).
  reflexivity.
Defined.

(** X5.  On every name and in every world the two printings of
    [readConfig] do the same things and leave the same world; both return
    nil or both return an error, and the two errors have the same text.
    They differ in the dynamic type of the error alone. *)
Theorem X5_the_two_printings_differ_in_the_error_type_only
    (path : string) (w : World) :
  exists r1 r2 w',
    Program.load path w = Some (r1, w')
    /\ Readme.load path w = Some (r2, w')
    /\ match r1, r2 with
       | None, None => True
       | Some a, Some b =>
           Error a = Error b
           /\ typeName a = "*errors.errorString"
           /\ typeName b = "*fmt.wrapError"
       | _, _ => False
       end.
Proof.
  destruct (platform_open w path) as [en|content] eqn:E.
  - rewrite (Program_load_failure path w en E), (Readme_load_failure path w en E).
    eexists; eexists; eexists. split; [reflexivity|]. split; [reflexivity|].
    now repeat split.
  - rewrite (Program_load_success path w content E),
            (Readme_load_success path w content E).
    eexists; eexists; eexists. split; [reflexivity|]. split; [reflexivity|].
    exact I.
Qed.

(** ** Wrapping, level upon level *)

(** X6.  Add context with [%w] at [n] levels of a call chain, starting from
    an error that matches [target].  The error that arrives at the top
    still matches [target] under [errors.Is]; [n] calls of [errors.Unwrap]
    give back the original error; its text is the original text behind [n]
    copies of the context; and only the allocator has moved. *)
Theorem X6_context_added_n_times_keeps_the_cause
    (n : nat) (err target : error) (w : World) (ds : list DeferredCall) :
  errors_Is (Some err) (Some target) = true ->
  exists e fr,
    Notes.add_context n err (mkFrame w ds) = Some (e, fr)
    /\ errors_Is (Some e) (Some target) = true
    /\ Nat.iter n errors_Unwrap (Some e) = Some err
    /\ Error e = Nat.iter n (append "failed to read config: ") (Error err)
    /\ deferred fr = ds
    /\ trace (world fr) = trace w
    /\ open_files (world fr) = open_files w
    /\ heap_next (world fr) = heap_next w + n.
Proof.
  intros H. rewrite add_context_runs.
  eexists; eexists. split; [reflexivity|].
  split; [exact (layered_keeps_match n (heap_next w) err target H)|].
  split; [apply layered_unwraps|].
  split; [apply layered_text|].
  now repeat split.
Qed.

Lemma X6_witness_three_levels :
  errors_Is (Some (open_failure "config.json" no_config ENOENT))
            (Some ErrNotExist) = true
  /\ exists e fr,
       Notes.add_context 3 (open_failure "config.json" no_config ENOENT)
                         (mkFrame no_config []) = Some (e, fr)
       /\ errors_Is (Some e) (Some ErrNotExist) = true
       /\ Nat.iter 3 errors_Unwrap (Some e)
          = Some (open_failure "config.json" no_config ENOENT)
       /\ Error e
          = "failed to read config: failed to read config: "
            ++ "failed to read config: "
            ++ "open config.json: no such file or directory"
       /\ deferred fr = []
       /\ trace (world fr) = []
       /\ open_files (world fr) = [0; 1; 2]
       /\ heap_next (world fr) = 3.
Proof.
  split; [reflexivity|].
  apply (X6_context_added_n_times_keeps_the_cause
           3 (open_failure "config.json" no_config ENOENT) ErrNotExist
           no_config []).
  reflexivity.
Defined.

(** X7.  For every error, the statement with [%v] and the statement with
    [%w] build errors with the same text, the context followed by the text
    of the original.  The one of [%w] unwraps to the original and is not
    equal, under [==], to any sentinel; the one of [%v] unwraps to nil and
    matches no sentinel under [errors.Is], even when the original is that
    sentinel. *)
Theorem X7_v_keeps_the_text_and_w_keeps_the_error (err : error) (fr : Frame) :
  exists ev ew frv frw,
    Notes.failedToReadConfig_v err fr = Some (ev, frv)
    /\ Notes.failedToReadConfig_w err fr = Some (ew, frw)
    /\ frv = frw
    /\ Error ev = "failed to read config: " ++ Error err
    /\ Error ew = Error ev
    /\ errors_Unwrap (Some ew) = Some err
    /\ errors_Unwrap (Some ev) = None
    /\ (forall name text,
          errors_Is (Some ev) (Some (sentinel name text)) = false
          /\ go_eq ew (sentinel name text) = false
          /\ errors_Is (Some ew) (Some (sentinel name text))
             = errors_Is (Some err) (Some (sentinel name text))).
Proof.
  rewrite failedToReadConfig_v_runs, failedToReadConfig_w_runs.
  eexists; eexists; eexists; eexists.
  split; [reflexivity|]. split; [reflexivity|].
  now repeat split.
Qed.

(** ** The custom error type *)

(** X8.  For every field name and message, whatever characters they hold
    (a percent sign included), [Error()] of a [ValidationError] is
    "validation failed on ", the field, ": " and the message, so the text
    contains both in full. *)
Theorem X8_validation_error_text (field msg : string) :
  exists text,
    Notes.ValidationError_Error (Notes.mkValidationError field msg) = Some text
    /\ text = "validation failed on " ++ field ++ ": " ++ msg
    /\ containsb field text = true
    /\ containsb msg text = true.
Proof.
  assert (Notes.ValidationError_Error (Notes.mkValidationError field msg)
          = Some ("validation failed on " ++ field ++ ": " ++ msg)) as Hrun.
  { unfold Notes.ValidationError_Error, Notes.fmt_Sprintf. simpl.
    now rewrite append_empty_r. }
  rewrite Hrun.
  eexists. split; [reflexivity|]. split; [reflexivity|]. split.
  - apply (containsb_later field "validation failed on ").
    apply containsb_here.
  - replace ("validation failed on " ++ field ++ ": " ++ msg)
      with (("validation failed on " ++ field ++ ": ") ++ msg ++ "").
    + apply containsb_later, containsb_here.
    + now rewrite append_empty_r, !append_assoc.
Qed.

(** The usage the notes give. *)
Example validation_error_of_the_notes :
  Notes.ValidationError_Error (Notes.mkValidationError "email" "invalid format")
  = Some "validation failed on email: invalid format".
Proof. reflexivity. Qed.

(** Operands are copied, not scanned for directives. *)
Example validation_error_with_a_directive_inside :
  Notes.ValidationError_Error (Notes.mkValidationError "%s" "100%")
  = Some "validation failed on %s: 100%".
Proof. reflexivity. Qed.

(** ** Asking an error for the path *)

(** The search of [errors.As] for a target of type [*os.PathError]: the
    first error of that type on the chain, the error itself included. *)
Fixpoint as_PathError (err : error) : option error :=
  match err with
  | PathError _ _ _ _ => Some err
  | wrapError _ _ inner => as_PathError inner
  | wrapErrors _ _ inners =>
      (fix first (l : list error) : option error :=
         match l with
         | [] => None
         | e :: l' =>
             match as_PathError e with
             | Some found => Some found
             | None => first l'
             end
         end) inners
  | errorString _ _ | Errno _ => None
  end.

(** [errors.As(err, &pathErr)] with [var pathErr *os.PathError]. *)
Definition errors_As_PathError (err : option error) : option error :=
  match err with
  | Some e => as_PathError e
  | None => None
  end.

(** "Inspecting Wrapped Errors", B:
<<
    var pathErr *os.PathError
    if errors.As(err, &pathErr) {
        fmt.Println("Path error:", pathErr.Path)
    }
>> *)
Definition printPathError (err : option error) : Go unit :=
  match errors_As_PathError err with
  | Some (PathError _ _ path _) => fmt_Println [AString "Path error:"; AString path]
  | _ => ret tt
  end.

(** X9.  Whenever the open fails, the check with [errors.As] for a
    [*os.PathError] finds the name that was opened in the error of
    [readConfig] as the notes print it, and prints it; in the error of the
    program it finds nothing and prints nothing. *)
Theorem X9_the_path_is_found_behind_w_and_lost_behind_s
    (path : string) (w : World) (en : errno) :
  platform_open w path = inl en ->
  exists e1 e2 w' fr1 fr2,
    Program.load path w = Some (Some e1, w')
    /\ Readme.load path w = Some (Some e2, w')
    /\ errors_As_PathError (Some e1) = None
    /\ errors_As_PathError (Some e2) = Some (open_failure path w en)
    /\ printPathError (Some e1) (mkFrame w' []) = Some (tt, fr1)
    /\ trace (world fr1) = trace w'
    /\ printPathError (Some e2) (mkFrame w' []) = Some (tt, fr2)
    /\ trace (world fr2)
       = (trace w' ++ [EvStdout ("Path error: " ++ path
                                 ++ String "010" EmptyString)])%list.
Proof.
  intros E.
  rewrite (Program_load_failure path w en E), (Readme_load_failure path w en E).
  do 5 eexists.
  split; [reflexivity|]. split; [reflexivity|].
  split; [reflexivity|]. split; [reflexivity|].
  split; [reflexivity|]. split; [reflexivity|].
  split; [reflexivity|].
  reflexivity.
Qed.

Lemma X9_witness_missing_config :
  platform_open no_config "config.json" = inl ENOENT
  /\ exists e1 e2 w' fr1 fr2,
       Program.load "config.json" no_config = Some (Some e1, w')
       /\ Readme.load "config.json" no_config = Some (Some e2, w')
       /\ errors_As_PathError (Some e1) = None
       /\ errors_As_PathError (Some e2)
          = Some (open_failure "config.json" no_config ENOENT)
       /\ printPathError (Some e1) (mkFrame w' []) = Some (tt, fr1)
       /\ trace (world fr1) = trace w'
       /\ printPathError (Some e2) (mkFrame w' []) = Some (tt, fr2)
       /\ trace (world fr2)
          = (trace w' ++ [EvStdout ("Path error: " ++ "config.json"
                                    ++ String "010" EmptyString)])%list.
Proof.
  split; [reflexivity|].
  apply (X9_the_path_is_found_behind_w_and_lost_behind_s
           "config.json" no_config ENOENT).
  reflexivity.
Defined.
